(** * isomorphic-ws: one WebSocket contract over three runtimes

    A shallow embedding of [src/lib/isomorphic-ws/isomorphic-ws.ts]:
    the runtime dispatch of [getIsomorphicWebSocket], the three
    constructors behind it, the listener bridge of [wrapNodeWebSocket]
    and the message normalizer [normalizeNodeMessageData].

    JavaScript values are a small inductive type; [ArrayBuffer]s live in
    a store indexed by allocation order, so that views alias their
    backing storage and a fresh allocation is visible as a new index.
    Code that allocates or may throw runs in the monad [Js]. *)

From Stdlib Require Import String Ascii Strings.Byte ZArith Lia DecimalString.
From stdpp Require Import base option list gmap strings.

Local Open Scope string_scope.
Local Open Scope list_scope.
Local Open Scope nat_scope.

(** ** Values *)

(** An [ArrayBuffer] is named by its allocation index in the store. *)
Abbreviation BufId := nat (only parsing).

(** The classes of [ArrayBufferView] the tests of the source tell apart:
    [Uint8Array] itself, Node's [Buffer] (a subclass of [Uint8Array],
    so [instanceof Uint8Array] holds for it), and every other view
    ([DataView], [Uint16Array], ...). *)
Inductive ViewKind := Uint8ArrayView | NodeBufferView | OtherView.

Record TypedArray := mkView {
  kind : ViewKind;
  buffer : BufId;
  byteOffset : nat;
  byteLength : nat
}.

(** The values the normalizer is studied on. An array is dense: its
    elements are the list, without holes. A buffer or view names
    storage of the store; detached buffers are not represented, and
    an allocation always succeeds. *)
#[warnings="-register-all"]
Inductive JsValue :=
| JUndefined
| JNull
| JBoolean (b : bool)
| JNumber (n : Z)
| JString (s : string)
| JArrayBuffer (b : BufId)
| JView (v : TypedArray)
| JArray (elements : list JsValue)
| JObject (class : string).

(** An error object: its constructor and its own properties. *)
Record JsError := mkError {
  err_class : string;
  err_own : gmap string JsValue
}.

(** [new Error(message)]: the only own property set by the constructor
    call is [message]. *)
Definition new_Error (message : string) : JsError :=
  {| err_class := "Error"; err_own := {[ "message" := JString message ]} |}.

Definition new_RangeError (message : string) : JsError :=
  {| err_class := "RangeError"; err_own := {[ "message" := JString message ]} |}.

(** Property read [e.key] on an error object: own properties first, then
    what [Error.prototype] provides ([name]); [undefined] otherwise. *)
Definition error_get (e : JsError) (key : string) : JsValue :=
  match err_own e !! key with
  | Some v => v
  | None => if String.eqb key "name" then JString (err_class e) else JUndefined
  end.

(** ** The store and the monad of allocating, throwing code *)

Abbreviation Heap := (list (list byte)) (only parsing).

Inductive Completion (A : Type) :=
| Normal (a : A)
| Throw (e : JsError).
Arguments Normal {A} a.
Arguments Throw {A} e.

Definition Js (A : Type) : Type := Heap -> Completion (A * Heap).

Definition ret {A} (a : A) : Js A := fun h => Normal (a, h).

Definition bind {A B} (m : Js A) (k : A -> Js B) : Js B :=
  fun h => match m h with
           | Normal (a, h') => k a h'
           | Throw e => Throw e
           end.

Notation "'let*' x ':=' m 'in' k" := (bind m (fun x => k))
  (at level 10, x name, m at level 100, k at level 200, only parsing).

Fixpoint mapM {A B} (f : A -> Js B) (xs : list A) : Js (list B) :=
  match xs with
  | [] => ret []
  | x :: xs' => let* y := f x in let* ys := mapM f xs' in ret (y :: ys)
  end.

(** ** Typed arrays over the store *)

Definition buffer_bytes (h : Heap) (b : BufId) : list byte :=
  default [] (h !! b).

(** The bytes a view exposes: [byteLength] bytes of its buffer from
    [byteOffset] on. *)
Definition view_bytes (h : Heap) (v : TypedArray) : list byte :=
  take (byteLength v) (drop (byteOffset v) (buffer_bytes h v.(buffer))).

(** [new Uint8Array(buffer, byteOffset, byteLength)]: a new view object
    on existing storage, nothing is allocated. *)
Definition Uint8Array_on (b : BufId) (off len : nat) : TypedArray :=
  mkView Uint8ArrayView b off len.

(** [new Uint8Array(arrayBuffer)]: a view of the whole buffer. *)
Definition Uint8Array_of_buffer (b : BufId) : Js TypedArray :=
  fun h => Normal (Uint8Array_on b 0 (length (buffer_bytes h b)), h).

(** [new Uint8Array(n)]: a fresh zero-filled buffer of [n] bytes and a
    view of all of it. [new Uint8Array()] is the case [n = 0]. *)
Definition new_Uint8Array (n : nat) : Js TypedArray :=
  fun h => Normal (Uint8Array_on (length h) 0 n, h ++ [replicate n x00]).

(** [target.set(source, offset)] for a [Uint8Array] source: a
    [RangeError] when the source does not fit, otherwise the source
    bytes overwrite the target's bytes from [offset] on. *)
Definition Uint8Array_set (target source : TypedArray) (offset : nat) : Js unit :=
  fun h =>
    if bool_decide (offset + byteLength source <= byteLength target)
    then Normal (tt, alter (list_inserts (byteOffset target + offset)
                                         (view_bytes h source))
                           target.(buffer) h)
    else Throw (new_RangeError "offset is out of bounds").

(** ** The message normalizer *)

Definition as_string (v : JsValue) : option string :=
  match v with JString s => Some s | _ => None end.

(** [v instanceof ArrayBuffer] *)
Definition as_ArrayBuffer (v : JsValue) : option BufId :=
  match v with JArrayBuffer b => Some b | _ => None end.

(** [ArrayBuffer.isView(v)] *)
Definition as_view (v : JsValue) : option TypedArray :=
  match v with JView t => Some t | _ => None end.

(** [Array.isArray(v)] *)
Definition as_Array (v : JsValue) : option (list JsValue) :=
  match v with JArray xs => Some xs | _ => None end.

(** [v instanceof Uint8Array]. Objects are taken to be ordinary: only a
    typed array has [Uint8Array.prototype] on its prototype chain. *)
Definition as_Uint8Array (v : JsValue) : option TypedArray :=
  match v with
  | JView t => match kind t with
               | Uint8ArrayView | NodeBufferView => Some t
               | OtherView => None
               end
  | _ => None
  end.

(** The callback of [data.map] (lines 145-156). *)
Definition chunk_to_Uint8Array (chunk : JsValue) : Js TypedArray :=
  match as_Uint8Array chunk with
  | Some u => ret u
  | None =>
    match as_ArrayBuffer chunk with
    | Some b => Uint8Array_of_buffer b
    | None =>
      match as_view chunk with
      | Some v => ret (Uint8Array_on v.(buffer) (byteOffset v) (byteLength v))
      | None => new_Uint8Array 0
      end
    end
  end.

(** [chunks.reduce((total, chunk) => total + chunk.byteLength, 0)] *)
Definition totalLength (chunks : list TypedArray) : nat :=
  fold_left (fun total chunk => total + byteLength chunk) chunks 0.

(** The [for (const chunk of chunks)] loop (lines 162-166), with the
    running [offset] as an argument. *)
Fixpoint merge_loop (merged : TypedArray) (chunks : list TypedArray)
    (offset : nat) : Js unit :=
  match chunks with
  | [] => ret tt
  | chunk :: rest =>
      let* _ := Uint8Array_set merged chunk offset in
      merge_loop merged rest (offset + byteLength chunk)
  end.

Definition normalizeNodeMessageData (data : JsValue) : Js JsValue :=
  match as_string data with
  | Some _ => ret data
  | None =>
    match as_ArrayBuffer data with
    | Some _ => ret data
    | None =>
      match as_view data with
      | Some v =>
          ret (JView (Uint8Array_on v.(buffer) (byteOffset v) (byteLength v)))
      | None =>
        match as_Array data with
        | Some elements =>
            let* chunks := mapM chunk_to_Uint8Array elements in
            let* merged := new_Uint8Array (totalLength chunks) in
            let* _ := merge_loop merged chunks 0 in
            ret (JView merged)
        | None =>
          match as_Uint8Array data with
          | Some _ => ret data
          | None => let* empty := new_Uint8Array 0 in ret (JView empty)
          end
        end
      end
    end
  end.

(** What a payload holds, read off the store. *)
Inductive Content :=
| Text (s : string)
| Bytes (bs : list byte).

Definition content (h : Heap) (v : JsValue) : option Content :=
  match v with
  | JString s => Some (Text s)
  | JArrayBuffer b => Some (Bytes (buffer_bytes h b))
  | JView t => Some (Bytes (view_bytes h t))
  | _ => None
  end.

Definition content_length (c : Content) : nat :=
  match c with
  | Text s => String.length s
  | Bytes bs => length bs
  end.

(** ** The listener bridge of [wrapNodeWebSocket] *)

(** [WS_READY_STATE] *)
Definition CONNECTING : nat := 0.
Definition OPEN : nat := 1.
Definition CLOSING : nat := 2.
Definition CLOSED : nat := 3.

Inductive EventType := OpenEvent | MessageEvent | ErrorEvent | CloseEvent.

Global Instance EventType_eq_dec : EqDecision EventType.
Proof. solve_decision. Defined.

(** What a registered listener receives. *)
Inductive IsomorphicEvent :=
| EmptyEvent                                    (* [{}] *)
| MessageData (data : JsValue)                  (* [{ data: normalized }] *)
| Forwarded (argument : JsValue)                (* the native argument, as is *)
| CloseInfo (code : JsValue) (reason : JsValue) (* [{ code, reason }] *).

(** [args[i]], [undefined] past the end. *)
Definition argument (i : nat) (args : list JsValue) : JsValue :=
  default JUndefined (args !! i).

(** A JavaScript object used as a header map. *)
Abbreviation Headers := (gmap string string) (only parsing).

(** A socket object of the host, named by a number. *)
Abbreviation SocketRef := nat (only parsing).

(** [s.startsWith(p)], with what follows the prefix. *)
Fixpoint strip_prefix (p s : string) : option string :=
  match p, s with
  | EmptyString, _ => Some s
  | String a p', String b s' =>
      if Ascii.eqb a b then strip_prefix p' s' else None
  | String _ _, EmptyString => None
  end.

(** [s.replace(pattern, replacement)] for a string pattern and a
    replacement without [$]: the first occurrence only. *)
Fixpoint String_replace (s pattern replacement : string) : string :=
  match strip_prefix pattern s with
  | Some rest => replacement +:+ rest
  | None =>
      match s with
      | EmptyString => EmptyString
      | String c s' => String c (String_replace s' pattern replacement)
      end
  end.

(** A non-negative integer in a template literal. *)
Definition Number_toString (n : nat) : string :=
  NilEmpty.string_of_uint (Nat.to_uint n).

(** [v === s] for a string [s]. *)
Definition strict_equals_string (v : JsValue) (s : string) : bool :=
  match v with
  | JString s' => String.eqb s' s
  | _ => false
  end.

Section Sockets.
(** The caller's world, which its listeners update. *)
Context {W : Type}.
(** [value.toString()], which belongs to the host. *)
Context (toString : Heap -> JsValue -> string).

(** A listener is a function object: its identity, by which [===]
    tells function objects apart, and what a call of it does. *)
Record Listener := mkListener {
  listener_id : nat;
  listener_call :> IsomorphicEvent -> W -> W
}.

(** A callback handed to [socket.on]: it receives the arguments of
    [emit]. *)
Definition Handler : Type := list JsValue -> W -> Js W.

(** The socket of the [ws] package, as far as the bridge uses it: an
    event emitter whose [on] appends to the listeners of an event and
    whose [emit] calls them in registration order. From version 8 on
    it has an [addEventListener] of its own, which installs on the
    same emitter a wrapper around the listener. *)
Record NodeWebSocket := mkNodeWebSocket {
  ws_readyState : nat;
  (** [typeof socket.addEventListener === "function"] *)
  ws_has_addEventListener : bool;
  (** the event object a wrapper of the socket's own
      [addEventListener] builds from the arguments of [emit] before it
      calls its listener; this is the package's business, and may
      throw *)
  ws_event : EventType -> list JsValue -> Heap -> Completion IsomorphicEvent;
  (** the listeners the socket's own [addEventListener] has wrapped
      and installed, oldest first *)
  ws_wrapped : list (EventType * Listener);
  (** the callbacks on the emitter, oldest first *)
  ws_listeners : list (EventType * Handler)
}.

Definition on (type : EventType) (f : Handler) (socket : NodeWebSocket)
    : NodeWebSocket :=
  {| ws_readyState := ws_readyState socket;
     ws_has_addEventListener := ws_has_addEventListener socket;
     ws_event := ws_event socket;
     ws_wrapped := ws_wrapped socket;
     ws_listeners := ws_listeners socket ++ [(type, f)] |}.

(** Whether the socket's own [addEventListener] has already installed
    this function object for [type]. *)
Definition installed (type : EventType) (listener : Listener)
    (socket : NodeWebSocket) : bool :=
  existsb (fun p => bool_decide (p.1 = type)
                    && Nat.eqb (listener_id p.2) (listener_id listener))
          (ws_wrapped socket).

(** The wrapper the socket's own [addEventListener] installs: it
    builds the event and calls the listener with it. *)
Definition ws_wrapper
    (event : EventType -> list JsValue -> Heap -> Completion IsomorphicEvent)
    (type : EventType) (listener : Listener) : Handler :=
  fun args w h =>
    match event type args h with
    | Normal ev => Normal (listener ev w, h)
    | Throw e => Throw e
    end.

(** [socket.addEventListener(type, listener)] of [ws]: a listener
    already installed for the kind is ignored, any other is wrapped
    and installed with [on]. *)
Definition native_addEventListener (type : EventType) (listener : Listener)
    (socket : NodeWebSocket) : NodeWebSocket :=
  if installed type listener socket then socket
  else
    {| ws_readyState := ws_readyState socket;
       ws_has_addEventListener := ws_has_addEventListener socket;
       ws_event := ws_event socket;
       ws_wrapped := ws_wrapped socket ++ [(type, listener)];
       ws_listeners :=
         ws_listeners socket
           ++ [(type, ws_wrapper (ws_event socket) type listener)] |}.

Fixpoint call_listeners (fs : list (EventType * Handler)) (type : EventType)
    (args : list JsValue) (w : W) : Js W :=
  match fs with
  | [] => ret w
  | (t, f) :: rest =>
      if decide (t = type)
      then let* w' := f args w in call_listeners rest type args w'
      else call_listeners rest type args w
  end.

(** [socket.listenerCount(type)] *)
Definition listenerCount (type : EventType) (socket : NodeWebSocket) : nat :=
  length (filter (fun p => p.1 = type) (ws_listeners socket)).

(** What an [error] event without a listener throws. Node throws the
    argument itself when it is an [Error] and an error carrying it
    otherwise; both are represented by an error that carries the
    argument. *)
Definition unhandled_error (args : list JsValue) : JsError :=
  {| err_class := "Error";
     err_own := {[ "context" := argument 0 args ]} |}.

(** [socket.emit(type, ...args)]: the listeners of the kind are called
    in order; an [error] event that no listener handles is thrown. *)
Definition emit (type : EventType) (args : list JsValue)
    (socket : NodeWebSocket) (w : W) : Js W :=
  if bool_decide (type = ErrorEvent)
     && bool_decide (listenerCount ErrorEvent socket = 0)
  then fun _ => Throw (unhandled_error args)
  else call_listeners (ws_listeners socket) type args w.

(** [reason?.toString()] *)
Definition optional_toString (reason : JsValue) : Js JsValue :=
  fun h => match reason with
           | JUndefined | JNull => Normal (JUndefined, h)
           | _ => Normal (JString (toString h reason), h)
           end.

(** The [readyState] getter of the wrapper (lines 82-84). *)
Definition readyState (socket : NodeWebSocket) : nat := ws_readyState socket.

(** The callbacks the [switch] of lines 92-123 hands to [socket.on]. *)
Definition open_handler (listener : Listener) : Handler :=
  fun _ w => ret (listener EmptyEvent w).

Definition message_handler (listener : Listener) : Handler :=
  fun args w =>
    let* normalized := normalizeNodeMessageData (argument 0 args) in
    ret (listener (MessageData normalized) w).

Definition error_handler (listener : Listener) : Handler :=
  fun args w => ret (listener (Forwarded (argument 0 args)) w).

Definition close_handler (listener : Listener) : Handler :=
  fun args w =>
    let* reason := optional_toString (argument 1 args) in
    ret (listener (CloseInfo (argument 0 args) reason) w).

(** [addEventListener] of the object [wrapNodeWebSocket] returns
    (lines 85-124). The object has no fields of its own: the call
    acts on the wrapped socket. *)
Definition addEventListener (type : EventType) (listener : Listener)
    (socket : NodeWebSocket) : NodeWebSocket :=
  if ws_has_addEventListener socket
  then native_addEventListener type listener socket
  else match type with
       | OpenEvent => on OpenEvent (open_handler listener) socket
       | MessageEvent => on MessageEvent (message_handler listener) socket
       | ErrorEvent => on ErrorEvent (error_handler listener) socket
       | CloseEvent => on CloseEvent (close_handler listener) socket
       end.

(** ** The factory and its three constructors *)

Record IsomorphicWebSocketOptions := mkOptions {
  headers : option Headers
}.

(** What [fetch] resolves to, as far as the factory reads it. *)
Record Response := mkResponse {
  status : nat;
  statusText : string;
  (** [response.webSocket], [None] for [null] *)
  webSocket : option SocketRef
}.

Record Release := mkRelease { name : JsValue }.
Record Process := mkProcess { release : option Release }.

(** The host: which globals exist, and what its functions answer. *)
Record Runtime := mkRuntime {
  (** [typeof WebSocketPair !== "undefined"] *)
  WebSocketPair_defined : bool;
  (** the global [process], [None] when [typeof process] is
      ["undefined"]; when defined it is an object, as its type
      declares (a [null] value is not represented) *)
  process : option Process;
  fetch : string -> Headers -> Completion Response;
  (** the default export of [import("ws")] *)
  import_ws :
    Completion (string -> option Headers -> Completion NodeWebSocket);
  (** [new WebSocket(url)] *)
  WebSocket : string -> Completion SocketRef
}.

Inductive IsomorphicWebSocket :=
| CloudflareSocket (socket : SocketRef)
| WrappedNodeSocket (socket : NodeWebSocket)
| GlobalSocket (socket : SocketRef).

(** What the factory does to the outside, in order. *)
Inductive Effect :=
| LogDebug (url : string) (msg : string)
| LogWarn (msg : string)
| FetchCall (url : string) (request_headers : Headers)
| ImportWs
| NewNodeWebSocket (url : string) (handshake_headers : option Headers)
| Accept (socket : SocketRef)
| NewWebSocket (url : string).

(** An asynchronous computation: the effects it performed and how its
    promise settled. *)
Definition Async (A : Type) : Type := list Effect * Completion A.

Definition resolve {A} (a : A) : Async A := ([], Normal a).
Definition reject {A} (e : JsError) : Async A := ([], Throw e).

Definition then_ {A B} (m : Async A) (k : A -> Async B) : Async B :=
  match m with
  | (log, Normal a) => let (log', r) := k a in (log ++ log', r)
  | (log, Throw e) => (log, Throw e)
  end.

(** Perform [e], whose outcome is [c]. *)
Definition perform {A} (e : Effect) (c : Completion A) : Async A := ([e], c).

Notation "'let!' x ':=' m 'in' k" := (then_ m (fun x => k))
  (at level 10, x name, m at level 100, k at level 200, only parsing).

(** The object [wrapNodeWebSocket] returns closes over [socket] and
    nothing else. *)
Definition wrapNodeWebSocket (socket : NodeWebSocket) : IsomorphicWebSocket :=
  WrappedNodeSocket socket.

Definition isNodeRuntime (rt : Runtime) : bool :=
  match process rt with
  | None => false
  | Some p =>
      match release p with
      | None => false
      | Some r => strict_equals_string (name r) "node"
      end
  end.

Definition isCloudflareWorkerRuntime (rt : Runtime) : bool :=
  WebSocketPair_defined rt.

Definition createNodeWebSocket (rt : Runtime) (url : string)
    (options : IsomorphicWebSocketOptions) : Async IsomorphicWebSocket :=
  let! NodeWebSocket_ := perform ImportWs (import_ws rt) in
  let! socket := perform (NewNodeWebSocket url (headers options))
                         (NodeWebSocket_ url (headers options)) in
  resolve (wrapNodeWebSocket socket).

Definition createCloudflareWebSocket (rt : Runtime) (url : string)
    (options : IsomorphicWebSocketOptions) : Async IsomorphicWebSocket :=
  let request_url := String_replace url "wss://" "https://" in
  let request_headers :=
    <["Upgrade" := "websocket"]> (default ∅ (headers options)) in
  let! response := perform (FetchCall request_url request_headers)
                           (fetch rt request_url request_headers) in
  match webSocket response with
  | None =>
      reject (new_Error ("Server refused the WebSocket upgrade: "
                         +:+ Number_toString (status response)
                         +:+ " " +:+ statusText response))
  | Some socket =>
      let! _ := perform (Accept socket) (Normal tt) in
      resolve (CloudflareSocket socket)
  end.

Definition createGlobalWebSocket (rt : Runtime) (url : string)
    : Async IsomorphicWebSocket :=
  let! socket := perform (NewWebSocket url) (WebSocket rt url) in
  resolve (GlobalSocket socket).

Definition getIsomorphicWebSocket (rt : Runtime) (url : string)
    (options : IsomorphicWebSocketOptions) : Async IsomorphicWebSocket :=
  if isCloudflareWorkerRuntime rt then
    let! _ := perform
      (LogDebug url "Using Cloudflare Worker WebSocket implementation")
      (Normal tt) in
    createCloudflareWebSocket rt url options
  else if isNodeRuntime rt then
    let! _ := perform (LogDebug url "Using Node WebSocket implementation")
                      (Normal tt) in
    createNodeWebSocket rt url options
  else
    let! _ := perform
      (LogWarn "Falling back to global WebSocket; custom headers may not be applied")
      (Normal tt) in
    createGlobalWebSocket rt url.

(** Which constructor [getIsomorphicWebSocket] dispatches to. *)
Inductive RuntimeKind := EdgeSandbox | ProcessHost | Generic.

(** The headers a constructor call or request of the log carries. *)
Definition applied_headers (e : Effect) : option Headers :=
  match e with
  | FetchCall _ hs => Some hs
  | NewNodeWebSocket _ hs => hs
  | _ => None
  end.
End Sockets.

(** ** Vocabulary of the properties *)

(** A view lies within its buffer, as every live view does. *)
Definition view_ok (h : Heap) (v : TypedArray) : bool :=
  match h !! v.(buffer) with
  | Some bs => bool_decide (byteOffset v + byteLength v <= length bs)
  | None => false
  end.

(** A value refers to the store [h] only through live buffers. *)
Definition value_ok (h : Heap) (x : JsValue) : bool :=
  match x with
  | JView v => view_ok h v
  | JArrayBuffer b => bool_decide (b < length h)
  | _ => true
  end.

(** A binary chunk: a buffer or a view of one. *)
Definition is_binary (x : JsValue) : bool :=
  match x with
  | JView _ | JArrayBuffer _ => true
  | _ => false
  end.

(** The bytes an element of a chunk sequence stands for. *)
Definition chunk_bytes (h : Heap) (x : JsValue) : list byte :=
  match x with
  | JView v => view_bytes h v
  | JArrayBuffer b => buffer_bytes h b
  | _ => []
  end.

(** [chunk.byteLength] of a binary chunk. *)
Definition chunk_byteLength (h : Heap) (x : JsValue) : nat :=
  match x with
  | JView v => byteLength v
  | JArrayBuffer b => length (buffer_bytes h b)
  | _ => 0
  end.

(** How many elements of a chunk sequence are not binary. *)
Definition unrecognized (xs : list JsValue) : nat :=
  length (filter (fun x => is_binary x = false) xs).

(** What [chunk_to_Uint8Array] owes the loop for an element [x] of a
    sequence read in the store [h]: a view of the right length that
    reads the element's bytes in every extension of [h]. *)
Definition stands_for (h : Heap) (x : JsValue) (v : TypedArray) : Prop :=
  byteLength v = length (chunk_bytes h x)
  /\ forall t, view_bytes (h ++ t) v = chunk_bytes h x.

(** The constructor an effect belongs to. *)
Definition constructor_of (e : Effect) : option RuntimeKind :=
  match e with
  | FetchCall _ _ => Some EdgeSandbox
  | ImportWs => Some ProcessHost
  | NewWebSocket _ => Some Generic
  | _ => None
  end.

(** The constructor a run of the factory entered. *)
Definition dispatched (log : list Effect) : option RuntimeKind :=
  head (omap constructor_of log).

(** The requests a run of the factory issued: address and headers. *)
Definition requests (log : list Effect) : list (string * Headers) :=
  omap (fun e => match e with
                 | FetchCall url hs => Some (url, hs)
                 | _ => None
                 end) log.

(** The messages a run of the factory logged at level [warn]. *)
Definition warnings (log : list Effect) : list string :=
  omap (fun e => match e with LogWarn msg => Some msg | _ => None end) log.

(** The callback [addEventListener] hands to [socket.on] for [type]. *)
Definition bridge_handler {W} (toString : Heap -> JsValue -> string)
    (type : EventType) (listener : @Listener W) : @Handler W :=
  match type with
  | OpenEvent => open_handler listener
  | MessageEvent => message_handler listener
  | ErrorEvent => error_handler listener
  | CloseEvent => close_handler toString listener
  end.

(** The shapes a normalized payload has: a string, an [ArrayBuffer] or
    a plain [Uint8Array]. *)
Definition canonical (v : JsValue) : bool :=
  match v with
  | JString _ | JArrayBuffer _ => true
  | JView t => match kind t with Uint8ArrayView => true | _ => false end
  | _ => false
  end.

(** The value refers to live buffers only: a view lies within a buffer
    of the store, and so do the elements of an array. *)
Definition data_live (h : Heap) (data : JsValue) : bool :=
  match data with
  | JArray elements => forallb (value_ok h) elements
  | _ => value_ok h data
  end.

(** [s.includes(pattern)] *)
Fixpoint includes (pattern s : string) : bool :=
  match strip_prefix pattern s with
  | Some _ => true
  | None =>
      match s with
      | EmptyString => false
      | String _ s' => includes pattern s'
      end
  end.


(** *** Sample hosts and sockets *)

(** Three buffers, and chunk sequences over them: the bytes 1 to 10
    of the chunk example, the last two inside a larger buffer. *)
Definition sample_store : Heap :=
  [[x01; x02; x03]; [x04; x05; x06; x07; x08]; [xff; x09; x0a; xff]].

Definition sample_chunks : list JsValue :=
  [JView (mkView Uint8ArrayView 0 0 3);
   JView (mkView Uint8ArrayView 0 3 0);
   JArrayBuffer 1;
   JView (mkView NodeBufferView 2 1 2)].

Definition sample_mixed : list JsValue :=
  [JView (mkView Uint8ArrayView 0 0 3);
   JNumber 7;
   JArrayBuffer 1;
   JString "text";
   JArray [JArrayBuffer 1];
   JView (mkView OtherView 2 1 2)].

(** A socket of an old [ws], without [addEventListener] and with no
    listener yet. *)
Definition bare_socket {W} : @NodeWebSocket W :=
  {| ws_readyState := CONNECTING; ws_has_addEventListener := false;
     ws_event := fun _ _ _ => Normal EmptyEvent;
     ws_wrapped := []; ws_listeners := [] |}.

(** A socket of [ws] 8 with no listener yet; as the event of its
    wrappers, a stand-in that carries the first argument. *)
Definition ws8_socket {W} : @NodeWebSocket W :=
  {| ws_readyState := CONNECTING; ws_has_addEventListener := true;
     ws_event := fun _ args _ => Normal (Forwarded (argument 0 args));
     ws_wrapped := []; ws_listeners := [] |}.

(** A listener that notes its number [n] in a world of numbers, and
    one that notes the event it received. *)
Definition push (n : nat) : @Listener (list nat) :=
  mkListener n (fun _ w => n :: w).

Definition note_event : @Listener (list IsomorphicEvent) :=
  mkListener 0 (fun ev w => ev :: w).

(** A stand-in for [toString] where no close event is involved. *)
Definition no_toString : Heap -> JsValue -> string := fun _ _ => "".

(** An edge worker whose upgrade requests are answered by
    [403 Forbidden], without a socket. *)
Definition edge_403 : @Runtime unit :=
  {| WebSocketPair_defined := true;
     process := None;
     fetch := fun _ _ => Normal (mkResponse 403 "Forbidden" None);
     import_ws := Throw (new_Error "Cannot find package ws");
     WebSocket := fun _ => Throw (new_Error "WebSocket is not defined") |}.

(** A browser: neither [WebSocketPair] nor [process]. *)
Definition browser : @Runtime unit :=
  {| WebSocketPair_defined := false;
     process := None;
     fetch := fun _ _ => Throw (new_Error "Failed to fetch");
     import_ws := Throw (new_Error "Cannot find package ws");
     WebSocket := fun _ => Normal 1 |}.

(** An edge worker whose upgrade requests succeed with socket 5. *)
Definition edge_accepting : @Runtime unit :=
  {| WebSocketPair_defined := true;
     process := None;
     fetch := fun _ _ => Normal (mkResponse 101 "Switching Protocols" (Some 5));
     import_ws := Throw (new_Error "Cannot find package ws");
     WebSocket := fun _ => Throw (new_Error "WebSocket is not defined") |}.

(** An edge worker without network. *)
Definition edge_offline : @Runtime unit :=
  {| WebSocketPair_defined := true;
     process := None;
     fetch := fun _ _ => Throw (new_Error "Network connection lost");
     import_ws := Throw (new_Error "Cannot find package ws");
     WebSocket := fun _ => Throw (new_Error "WebSocket is not defined") |}.

(** Node with the [ws] package installed. *)
Definition node_host : @Runtime unit :=
  {| WebSocketPair_defined := false;
     process := Some (mkProcess (Some (mkRelease (JString "node"))));
     fetch := fun _ _ => Throw (new_Error "fetch failed");
     import_ws := Normal (fun _ _ => Normal bare_socket);
     WebSocket := fun _ => Normal 1 |}.

(** Node without the [ws] package. *)
Definition node_without_ws : @Runtime unit :=
  {| WebSocketPair_defined := false;
     process := Some (mkProcess (Some (mkRelease (JString "node"))));
     fetch := fun _ _ => Throw (new_Error "fetch failed");
     import_ws := Throw (new_Error "Cannot find package ws");
     WebSocket := fun _ => Normal 1 |}.

(** * Properties *)

Example spec_chunks_3_5_2 :
  normalizeNodeMessageData
    (JArray [JView (mkView Uint8ArrayView 0 0 3);
             JArrayBuffer 1;
             JView (mkView NodeBufferView 2 1 2)])
    [[x01; x02; x03]; [x04; x05; x06; x07; x08]; [xff; x09; x0a; xff]]
  = Normal (JView (mkView Uint8ArrayView 3 0 10),
            [[x01; x02; x03]; [x04; x05; x06; x07; x08]; [xff; x09; x0a; xff];
             [x01; x02; x03; x04; x05; x06; x07; x08; x09; x0a]]).
Proof. reflexivity. Qed.

(** ** The normalizer on chunk sequences *)

Section Chunks.
Implicit Types (h : Heap) (x : JsValue) (v : TypedArray) (bs : list byte).

Lemma view_ok_spec h v :
  view_ok h v = true ->
  exists buf, h !! v.(buffer) = Some buf
              /\ byteOffset v + byteLength v <= length buf.
Proof.
  unfold view_ok. destruct (h !! buffer v) as [buf|]; [|done].
  intros Hb%bool_decide_eq_true. eauto.
Qed.

Lemma view_bytes_length h v :
  view_ok h v = true -> length (view_bytes h v) = byteLength v.
Proof.
  intros (buf & Hbuf & Hle)%view_ok_spec.
  unfold view_bytes, buffer_bytes. rewrite Hbuf. simpl.
  rewrite length_take, length_drop. lia.
Qed.

Lemma view_bytes_extend h t v :
  view_ok h v = true -> view_bytes (h ++ t) v = view_bytes h v.
Proof.
  intros (buf & Hbuf & _)%view_ok_spec.
  unfold view_bytes, buffer_bytes.
  by rewrite (lookup_app_l_Some _ _ _ _ Hbuf), Hbuf.
Qed.

Lemma buffer_bytes_extend h t (b : nat) :
  b < length h -> buffer_bytes (h ++ t) b = buffer_bytes h b.
Proof. intros Hb. unfold buffer_bytes. by rewrite lookup_app_l. Qed.

Lemma chunk_bytes_length h x :
  value_ok h x = true -> length (chunk_bytes h x) = chunk_byteLength h x.
Proof. destruct x; simpl; auto using view_bytes_length. Qed.

Lemma stands_for_view h v k :
  view_ok h v = true ->
  stands_for h (JView v) (mkView k v.(buffer) (byteOffset v) (byteLength v)).
Proof.
  intros Hok. split; simpl.
  - by rewrite view_bytes_length.
  - intros t. rewrite <- (view_bytes_extend h t v Hok). done.
Qed.

Lemma chunk_to_Uint8Array_spec h x e :
  value_ok h x = true ->
  exists v,
    chunk_to_Uint8Array x (h ++ replicate e [])
    = Normal (v, h ++ replicate (e + unrecognized [x]) [])
    /\ stands_for h x v.
Proof.
  intros Hok.
  assert (Hsame : h ++ replicate (e + 0) [] = h ++ replicate e [])
    by (by rewrite Nat.add_0_r).
  assert (Hfresh : forall c : JsValue,
    chunk_bytes h c = [] -> unrecognized [c] = 1 ->
    new_Uint8Array 0 (h ++ replicate e [])
    = Normal (Uint8Array_on (length (h ++ replicate e [])) 0 0,
              h ++ replicate (e + unrecognized [c]) [])
    /\ stands_for h c (Uint8Array_on (length (h ++ replicate e [])) 0 0)).
  { intros c Hc ->. split.
    - unfold new_Uint8Array. simpl.
      by rewrite replicate_add, app_assoc.
    - split; simpl; rewrite Hc; done. }
  destruct x as [| |b|n|s|b|v|xs|c];
    try (eexists; apply Hfresh; reflexivity).
  - (* an ArrayBuffer *)
    simpl in Hok. apply bool_decide_eq_true in Hok.
    eexists. split.
    + change (unrecognized [JArrayBuffer b]) with 0. rewrite Hsame.
      reflexivity.
    + rewrite buffer_bytes_extend by done.
      split; simpl; [done|]. intros t.
      unfold view_bytes. simpl. rewrite buffer_bytes_extend by done.
      by rewrite drop_0, firstn_all.
  - (* a view *)
    simpl in Hok. destruct v as [k b off len]. exists (mkView
      match k with OtherView => Uint8ArrayView | _ => k end b off len).
    split.
    + change (unrecognized [JView (mkView k b off len)]) with 0.
      rewrite Hsame. by destruct k.
    + apply (stands_for_view h (mkView k b off len)), Hok.
Qed.

Lemma unrecognized_cons x xs :
  unrecognized (x :: xs) = unrecognized [x] + unrecognized xs.
Proof.
  unfold unrecognized. rewrite !filter_cons, filter_nil.
  destruct (decide (is_binary x = false)); reflexivity.
Qed.

Lemma mapM_chunks h xs :
  Forall (fun x => value_ok h x = true) xs ->
  forall e, exists vs,
    mapM chunk_to_Uint8Array xs (h ++ replicate e [])
    = Normal (vs, h ++ replicate (e + unrecognized xs) [])
    /\ Forall2 (stands_for h) xs vs.
Proof.
  induction 1 as [|x xs Hx _ IH]; intros e.
  - exists []. split; [|constructor].
    change (unrecognized []) with 0. by rewrite Nat.add_0_r.
  - destruct (chunk_to_Uint8Array_spec h x e Hx) as (v & Hv & Hsv).
    destruct (IH (e + unrecognized [x])) as (vs & Hvs & Hall).
    exists (v :: vs). split; [|by constructor].
    simpl. unfold bind at 1. rewrite Hv.
    unfold bind at 1. rewrite Hvs.
    unfold ret. by rewrite (unrecognized_cons x xs), Nat.add_assoc.
Qed.

Lemma totalLength_sum (vs : list TypedArray) :
  totalLength vs = sum_list (map byteLength vs).
Proof.
  unfold totalLength.
  enough (forall a, fold_left (fun total chunk => total + byteLength chunk) vs a
                    = a + sum_list (map byteLength vs)) as -> by done.
  induction vs as [|v vs IH]; intros a; simpl; [lia|].
  rewrite IH. lia.
Qed.

Lemma stands_for_total h xs vs :
  Forall2 (stands_for h) xs vs ->
  totalLength vs = length (concat (map (chunk_bytes h) xs)).
Proof.
  rewrite totalLength_sum.
  induction 1 as [|x v xs vs [Hlen _] _ IH]; simpl; [done|].
  rewrite length_app. congruence.
Qed.

Lemma list_inserts_after {A} (done src pad rest : list A) :
  length pad = length src ->
  list_inserts (length done) src (done ++ pad ++ rest) = done ++ src ++ rest.
Proof.
  intros Hpad.
  rewrite <- (Nat.add_0_r (length done)), list_inserts_app_r.
  by rewrite list_inserts_0_r.
Qed.

(** The loop fills the fresh buffer from left to right: with [done]
    written so far and zeroes after it, it ends with the bytes of all
    remaining chunks in place of the zeroes. *)
Lemma merge_loop_spec h t xs vs :
  Forall2 (stands_for h) xs vs ->
  forall (done : list byte) total,
    total = length done + length (concat (map (chunk_bytes h) xs)) ->
    merge_loop (Uint8Array_on (length (h ++ t)) 0 total) vs (length done)
      ((h ++ t)
         ++ [done ++ replicate (length (concat (map (chunk_bytes h) xs))) x00])
    = Normal (tt, (h ++ t) ++ [done ++ concat (map (chunk_bytes h) xs)]).
Proof.
  induction 1 as [|x v xs vs [Hlen Hbytes] _ IH]; intros done total Htotal.
  - reflexivity.
  - simpl in *. unfold bind, Uint8Array_set. simpl.
    rewrite length_app in Htotal.
    rewrite bool_decide_true by lia.
    rewrite <- (assoc_L (++) h t), Hbytes, (assoc_L (++) h t).
    rewrite (alter_app_r_alt _ (h ++ t)) by lia.
    rewrite Nat.sub_diag. simpl.
    rewrite (length_app (chunk_bytes h x)), replicate_add.
    rewrite list_inserts_after by apply length_replicate.
    rewrite Hlen, <- length_app, (assoc_L (++) done).
    rewrite (IH (done ++ chunk_bytes h x) total)
      by (rewrite length_app; lia).
    by rewrite <- (assoc_L (++) done).
Qed.

(** A chunk sequence whose elements refer to live buffers normalizes
    to one view of a buffer allocated last, after one empty buffer per
    element that is not binary; it holds the elements' bytes in order. *)
Lemma normalize_array h xs :
  Forall (fun x => value_ok h x = true) xs ->
  normalizeNodeMessageData (JArray xs) h
  = Normal (JView (Uint8Array_on (length h + unrecognized xs) 0
                     (length (concat (map (chunk_bytes h) xs)))),
            h ++ replicate (unrecognized xs) []
              ++ [concat (map (chunk_bytes h) xs)]).
Proof.
  intros Hok.
  destruct (mapM_chunks h xs Hok 0) as (vs & Hvs & Hall).
  simpl in Hvs. rewrite app_nil_r in Hvs.
  unfold normalizeNodeMessageData. simpl.
  unfold bind at 1. rewrite Hvs.
  unfold bind at 1. unfold new_Uint8Array at 1.
  rewrite (stands_for_total h xs vs Hall).
  unfold bind at 1.
  pose proof (merge_loop_spec h (replicate (unrecognized xs) []) xs vs Hall
                [] _ eq_refl) as Hloop.
  simpl in Hloop. rewrite Hloop. unfold ret.
  by rewrite length_app, length_replicate, <- (assoc_L (++) h).
Qed.

Lemma all_binary_recognized xs :
  Forall (fun x => is_binary x = true) xs -> unrecognized xs = 0.
Proof.
  induction 1 as [|x xs Hx _ IH]; [done|].
  rewrite unrecognized_cons, IH. unfold unrecognized.
  rewrite filter_cons, filter_nil.
  destruct (decide (is_binary x = false)); [congruence|done].
Qed.

Lemma concat_chunk_bytes_length h xs :
  Forall (fun x => value_ok h x = true) xs ->
  length (concat (map (chunk_bytes h) xs))
  = sum_list (map (chunk_byteLength h) xs).
Proof.
  induction 1 as [|x xs Hx _ IH]; simpl; [done|].
  by rewrite length_app, IH, chunk_bytes_length.
Qed.

(** Byte [j] of chunk [i] sits at the sum of the earlier chunks'
    lengths plus [j]. *)
Lemma concat_chunk_bytes_lookup h xs i x j (b : byte) :
  Forall (fun x => value_ok h x = true) xs ->
  xs !! i = Some x ->
  chunk_bytes h x !! j = Some b ->
  concat (map (chunk_bytes h) xs)
    !! (sum_list (map (chunk_byteLength h) (take i xs)) + j) = Some b.
Proof.
  intros Hok Hi Hj.
  replace (concat (map (chunk_bytes h) xs))
    with (concat (map (chunk_bytes h) (take i xs ++ x :: drop (S i) xs)))
    by (by rewrite (take_drop_middle xs i x Hi)).
  rewrite map_app, concat_app. simpl.
  rewrite <- concat_chunk_bytes_length by (by apply Forall_take).
  rewrite lookup_app_r by lia.
  replace (_ + j - _) with j by lia.
  by apply lookup_app_l_Some.
Qed.

Lemma whole_view_bytes h bs :
  view_bytes (h ++ [bs]) (Uint8Array_on (length h) 0 (length bs)) = bs.
Proof.
  unfold view_bytes, buffer_bytes. simpl.
  rewrite list_lookup_middle by done. simpl.
  by rewrite drop_0, firstn_all.
Qed.
End Chunks.

(** C2. A list of binary chunks (buffers and views, each within a live
    buffer of the store) normalizes to one [Uint8Array] over a buffer
    that did not exist before; its length is the sum of the chunks'
    lengths, it holds the chunks' bytes concatenated in order, so that
    byte [j] of chunk [i] is found at the sum of the earlier lengths
    plus [j], and the buffers that existed before are unchanged. *)
Theorem chunk_concatenation (h : Heap) (chunks : list JsValue) :
  Forall (fun c => is_binary c = true /\ value_ok h c = true) chunks ->
  let total := sum_list (map (chunk_byteLength h) chunks) in
  let merged := Uint8Array_on (length h) 0 total in
  let h' := h ++ [concat (map (chunk_bytes h) chunks)] in
  normalizeNodeMessageData (JArray chunks) h = Normal (JView merged, h')
  /\ h !! merged.(buffer) = None
  /\ length (view_bytes h' merged) = total
  /\ view_bytes h' merged = concat (map (chunk_bytes h) chunks)
  /\ forall i c j b,
       chunks !! i = Some c ->
       chunk_bytes h c !! j = Some b ->
       view_bytes h' merged
         !! (sum_list (map (chunk_byteLength h) (take i chunks)) + j) = Some b.
Proof.
  intros Hall total merged h'.
  assert (Hbin : Forall (fun c => is_binary c = true) chunks)
    by (eapply Forall_impl; [exact Hall|]; by intros c [? ?]).
  assert (Hok : Forall (fun c => value_ok h c = true) chunks)
    by (eapply Forall_impl; [exact Hall|]; by intros c [? ?]).
  assert (Hview : view_bytes h' merged = concat (map (chunk_bytes h) chunks)).
  { subst merged total h'. rewrite <- (concat_chunk_bytes_length h chunks Hok).
    apply whole_view_bytes. }
  split; [|split; [|split; [|split]]].
  - rewrite (normalize_array h chunks Hok).
    rewrite (all_binary_recognized chunks Hbin), Nat.add_0_r. simpl.
    by rewrite (concat_chunk_bytes_length h chunks Hok).
  - apply lookup_ge_None_2. simpl. lia.
  - rewrite Hview. by apply concat_chunk_bytes_length.
  - exact Hview.
  - intros i c j b Hi Hj. rewrite Hview.
    by apply (concat_chunk_bytes_lookup h chunks i c j b).
Qed.

Lemma chunk_concatenation_witness :
  normalizeNodeMessageData (JArray sample_chunks) sample_store
  = Normal (JView (mkView Uint8ArrayView 3 0 10),
            sample_store
              ++ [[x01; x02; x03; x04; x05; x06; x07; x08; x09; x0a]]).
Proof.
  refine (proj1 (chunk_concatenation sample_store sample_chunks _)).
  repeat constructor.
Defined.

(** C9. In a chunk sequence, an element that is neither a buffer nor a
    view becomes an empty [Uint8Array] and no error is raised; the
    result holds, in order, the bytes of the buffers and views among
    the elements and nothing else. *)
Theorem unrecognized_chunk_is_empty (h : Heap) (elements : list JsValue) :
  Forall (fun x => value_ok h x = true) elements ->
  (forall x h0, is_binary x = false ->
     chunk_to_Uint8Array x h0
     = Normal (Uint8Array_on (length h0) 0 0, h0 ++ [[]]))
  /\ exists merged h',
       normalizeNodeMessageData (JArray elements) h = Normal (JView merged, h')
       /\ view_bytes h' merged
          = concat (map (chunk_bytes h)
                        (filter (fun x => is_binary x = true) elements))
       /\ byteLength merged
          = sum_list (map (chunk_byteLength h)
                          (filter (fun x => is_binary x = true) elements)).
Proof.
  intros Hok. split.
  - intros x h0 Hx. by destruct x.
  - assert (Hsame : concat (map (chunk_bytes h) elements)
                    = concat (map (chunk_bytes h)
                        (filter (fun x => is_binary x = true) elements))).
    { clear Hok. induction elements as [|x xs IH]; [done|].
      rewrite filter_cons. destruct (decide (is_binary x = true)) as [Hx|Hx].
      - simpl. by rewrite IH.
      - simpl. rewrite IH. by destruct x. }
    eexists _, _. split; [apply (normalize_array h elements Hok)|].
    rewrite app_assoc.
    replace (length h + unrecognized elements)
      with (length (h ++ replicate (unrecognized elements) []))
      by (by rewrite length_app, length_replicate).
    rewrite whole_view_bytes. split; [done|]. simpl.
    rewrite Hsame. apply concat_chunk_bytes_length.
    apply Forall_forall. intros x [_ Hx]%list_elem_of_filter.
    by apply (proj1 (Forall_forall _ _) Hok).
Qed.

Lemma unrecognized_chunk_is_empty_witness :
  exists merged h',
    normalizeNodeMessageData (JArray sample_mixed) sample_store
    = Normal (JView merged, h')
    /\ view_bytes h' merged
       = [x01; x02; x03; x04; x05; x06; x07; x08; x09; x0a]
    /\ byteLength merged = 10.
Proof.
  refine (proj2 (unrecognized_chunk_is_empty sample_store sample_mixed _)).
  repeat constructor.
Defined.

(** C4. A value that is not a string, not an [ArrayBuffer], not a view
    and not an array normalizes, without an error, to an empty
    [Uint8Array] over a fresh empty buffer. *)
Theorem unrecognized_is_empty (h : Heap) (data : JsValue) :
  as_string data = None ->
  as_ArrayBuffer data = None ->
  as_view data = None ->
  as_Array data = None ->
  let empty := Uint8Array_on (length h) 0 0 in
  normalizeNodeMessageData data h = Normal (JView empty, h ++ [[]])
  /\ byteLength empty = 0
  /\ content (h ++ [[]]) (JView empty) = Some (Bytes []).
Proof.
  intros Hs Hb Hv Ha. by destruct data.
Qed.

Lemma unrecognized_is_empty_witness :
  normalizeNodeMessageData (JObject "Blob") sample_store
  = Normal (JView (mkView Uint8ArrayView 3 0 0), sample_store ++ [[]]).
Proof.
  exact (proj1 (unrecognized_is_empty sample_store (JObject "Blob")
                  eq_refl eq_refl eq_refl eq_refl)).
Defined.

(** C5. A string, an [ArrayBuffer] or a view normalizes without
    touching the store to a value with the same content, hence the same
    length: a string or buffer is returned as it is, a view comes back
    as a [Uint8Array] on the same buffer with the same offset and
    length. *)
Theorem normalize_canonical (h : Heap) (data : JsValue) :
  is_Some (as_string data) \/ is_Some (as_ArrayBuffer data)
    \/ is_Some (as_view data) ->
  exists r c,
    normalizeNodeMessageData data h = Normal (r, h)
    /\ content h data = Some c
    /\ content h r = Some c
    /\ content_length <$> content h r = content_length <$> content h data
    /\ (as_view data = None -> r = data)
    /\ (forall v, as_view data = Some v ->
          r = JView (mkView Uint8ArrayView v.(buffer) (byteOffset v)
                            (byteLength v))).
Proof.
  intros [[s Hs]|[[b Hb]|[v Hv]]]; destruct data; try discriminate;
    simpl in *; eexists _, _; (split; [reflexivity|]);
    (split; [reflexivity|]); (split; [reflexivity|]);
    (split; [reflexivity|]);
    split; try done; intros ? [= <-]; done.
Qed.

Lemma normalize_canonical_witness :
  exists r c,
    normalizeNodeMessageData (JView (mkView NodeBufferView 2 1 2)) sample_store
    = Normal (r, sample_store)
    /\ content sample_store (JView (mkView NodeBufferView 2 1 2)) = Some c
    /\ content sample_store r = Some c
    /\ content_length <$> content sample_store r
       = content_length <$> content sample_store
                              (JView (mkView NodeBufferView 2 1 2))
    /\ (as_view (JView (mkView NodeBufferView 2 1 2)) = None ->
        r = JView (mkView NodeBufferView 2 1 2))
    /\ (forall v, as_view (JView (mkView NodeBufferView 2 1 2)) = Some v ->
          r = JView (mkView Uint8ArrayView v.(buffer) (byteOffset v)
                            (byteLength v))).
Proof.
  refine (normalize_canonical sample_store
            (JView (mkView NodeBufferView 2 1 2)) _).
  right. right. eexists. reflexivity.
Defined.

(** ** The factory *)

Section Factory.
Context {W : Type}.
Implicit Types (rt : @Runtime W) (url : string)
  (options : IsomorphicWebSocketOptions).

Lemma then_log {A B} (m : Async A) (k : A -> Async B) :
  (then_ m k).1
  = m.1 ++ match m.2 with Normal a => (k a).1 | Throw _ => [] end.
Proof.
  destruct m as [log [a|e]]; simpl; [by destruct (k a)|].
  by rewrite app_nil_r.
Qed.

Lemma then_outcome {A B} (m : Async A) (k : A -> Async B) :
  (then_ m k).2
  = match m.2 with Normal a => (k a).2 | Throw e => Throw e end.
Proof. destruct m as [log [a|e]]; simpl; [by destruct (k a)|done]. Qed.

(** The generic constructor: one call of [new WebSocket(url)]. *)
Lemma createGlobalWebSocket_run rt url :
  createGlobalWebSocket rt url
  = ([NewWebSocket url],
     match WebSocket rt url with
     | Normal socket => Normal (GlobalSocket socket)
     | Throw e => Throw e
     end).
Proof.
  unfold createGlobalWebSocket, perform, then_. by destruct (WebSocket rt url).
Qed.

Lemma generic_run rt url options :
  isCloudflareWorkerRuntime rt = false ->
  isNodeRuntime rt = false ->
  getIsomorphicWebSocket rt url options
  = ([LogWarn "Falling back to global WebSocket; custom headers may not be applied";
      NewWebSocket url],
     match WebSocket rt url with
     | Normal socket => Normal (GlobalSocket socket)
     | Throw e => Throw e
     end).
Proof.
  intros Hcf Hnode. unfold getIsomorphicWebSocket.
  rewrite Hcf, Hnode, createGlobalWebSocket_run. reflexivity.
Qed.

(** The edge constructor: one [fetch], then either the refusal or
    [accept]. *)
Lemma createCloudflareWebSocket_log rt url options :
  requests (createCloudflareWebSocket rt url options).1
  = [(String_replace url "wss://" "https://",
      <["Upgrade" := "websocket"]> (default ∅ (headers options)))].
Proof.
  unfold createCloudflareWebSocket. rewrite then_log. simpl.
  destruct (fetch rt _ _) as [response|e]; [|done].
  by destruct (webSocket response).
Qed.
End Factory.

(** C6. The factory enters exactly one constructor, decided without
    failure by the host's globals in a fixed order: the edge
    constructor when [WebSocketPair] is defined, whatever [process]
    is; otherwise the process-host constructor when [process] is
    defined and [process.release.name] is the string [node];
    otherwise the generic one. *)
Theorem detection_order {W} (rt : @Runtime W) (url : string)
    (options : IsomorphicWebSocketOptions) :
  let node_marker :=
    exists p r, process rt = Some p /\ release p = Some r
                /\ name r = JString "node" in
  let entered := dispatched (getIsomorphicWebSocket rt url options).1 in
  (WebSocketPair_defined rt = true -> entered = Some EdgeSandbox)
  /\ (WebSocketPair_defined rt = false -> node_marker ->
      entered = Some ProcessHost)
  /\ (WebSocketPair_defined rt = false -> ~ node_marker ->
      entered = Some Generic).
Proof.
  intros node_marker entered. subst node_marker entered.
  unfold getIsomorphicWebSocket, isCloudflareWorkerRuntime.
  split; [|split].
  - intros ->. rewrite then_log. simpl.
    unfold createCloudflareWebSocket. by rewrite then_log.
  - intros -> (p & r & Hp & Hr & Hname).
    assert (Hnode : isNodeRuntime rt = true)
      by (unfold isNodeRuntime; by rewrite Hp, Hr, Hname).
    rewrite Hnode, then_log. simpl.
    unfold createNodeWebSocket. by rewrite then_log.
  - intros -> Hnot.
    destruct (isNodeRuntime rt) eqn:Hnode.
    + exfalso. apply Hnot. unfold isNodeRuntime in Hnode.
      destruct (process rt) as [p|]; [|done].
      destruct (release p) as [r|] eqn:Hr; [|done].
      exists p, r. split; [done|]. split; [done|].
      destruct (name r); try discriminate.
      simpl in Hnode. apply String.eqb_eq in Hnode. by subst.
    + rewrite then_log. simpl. by rewrite createGlobalWebSocket_run.
Qed.

(** The three hosts of the order: an edge worker, Node (also when its
    [ws] is missing) and a browser. *)
Example detection_samples :
  dispatched (getIsomorphicWebSocket edge_403 "wss://speech.example/ws"
                (mkOptions None)).1 = Some EdgeSandbox
  /\ dispatched (getIsomorphicWebSocket node_host "wss://speech.example/ws"
                   (mkOptions None)).1 = Some ProcessHost
  /\ dispatched (getIsomorphicWebSocket node_without_ws
                   "wss://speech.example/ws" (mkOptions None)).1
     = Some ProcessHost
  /\ dispatched (getIsomorphicWebSocket browser "wss://speech.example/ws"
                   (mkOptions None)).1 = Some Generic.
Proof. repeat split; reflexivity. Qed.

(** A host with both markers, as a test harness on Node may be, is
    classified as an edge worker. *)
Example both_markers_edge :
  dispatched
    (getIsomorphicWebSocket
       {| WebSocketPair_defined := true;
          process := Some (mkProcess (Some (mkRelease (JString "node"))));
          fetch := fetch edge_403;
          import_ws := import_ws edge_403;
          WebSocket := WebSocket edge_403 |}
       "wss://speech.example/ws" (mkOptions None)).1
  = Some EdgeSandbox.
Proof. reflexivity. Qed.

(** C3, as the code has it. When the upgrade response carries no
    socket, the factory rejects with a plain [Error] whose message is
    the refusal text followed by the response's status and status
    text; the message is the error's only own property, so that its
    [status] field is [undefined]. *)
Theorem upgrade_refused {W} (rt : @Runtime W) (url : string)
    (options : IsomorphicWebSocketOptions) (response : Response) :
  isCloudflareWorkerRuntime rt = true ->
  fetch rt (String_replace url "wss://" "https://")
        (<["Upgrade" := "websocket"]> (default ∅ (headers options)))
  = Normal response ->
  webSocket response = None ->
  exists e,
    (getIsomorphicWebSocket rt url options).2 = Throw e
    /\ err_class e = "Error"
    /\ err_own e
       = {[ "message" :=
              JString ("Server refused the WebSocket upgrade: "
                       +:+ Number_toString (status response)
                       +:+ " " +:+ statusText response) ]}
    /\ error_get e "status" = JUndefined.
Proof.
  intros Hcf Hfetch Hnone. eexists. split; [|split; [|split]].
  - unfold getIsomorphicWebSocket. rewrite Hcf, then_outcome. simpl.
    unfold createCloudflareWebSocket. rewrite then_outcome. simpl.
    rewrite Hfetch, Hnone. reflexivity.
  - reflexivity.
  - reflexivity.
  - unfold error_get. simpl. by rewrite lookup_singleton_ne.
Qed.

Lemma upgrade_refused_witness :
  exists e,
    (getIsomorphicWebSocket edge_403 "wss://speech.example/ws"
       (mkOptions None)).2 = Throw e
    /\ err_class e = "Error"
    /\ err_own e
       = {[ "message" :=
              JString "Server refused the WebSocket upgrade: 403 Forbidden" ]}
    /\ error_get e "status" = JUndefined.
Proof.
  exact (upgrade_refused edge_403 "wss://speech.example/ws" (mkOptions None)
           (mkResponse 403 "Forbidden" None) eq_refl eq_refl eq_refl).
Defined.

(** C3 as stated fails: after a response with status 403 the rejection
    has no [status] field equal to 403. *)
Lemma status_field_counterexample :
  exists e,
    (getIsomorphicWebSocket edge_403 "wss://speech.example/ws"
       (mkOptions None)).2 = Throw e
    /\ error_get e "status" <> JNumber 403.
Proof. eexists. split; [reflexivity|]. vm_compute. discriminate. Qed.

(** C7, as the code has it. For an address [wss://rest] the edge path
    issues exactly one request, to [https://rest], whose headers are
    the configured ones with [Upgrade] set to [websocket]. *)
Theorem edge_request {W} (rt : @Runtime W) (rest : string)
    (options : IsomorphicWebSocketOptions) :
  isCloudflareWorkerRuntime rt = true ->
  exists hs,
    requests (getIsomorphicWebSocket rt ("wss://" +:+ rest) options).1
    = [("https://" +:+ rest, hs)]
    /\ hs !! "Upgrade" = Some "websocket"
    /\ forall k, k <> "Upgrade" ->
         hs !! k = default ∅ (headers options) !! k.
Proof.
  intros Hcf. eexists. split; [|split].
  - unfold getIsomorphicWebSocket. rewrite Hcf, then_log. simpl.
    apply createCloudflareWebSocket_log.
  - apply lookup_insert_eq.
  - intros k Hk. by apply lookup_insert_ne.
Qed.

Lemma edge_request_witness :
  exists hs,
    requests (getIsomorphicWebSocket edge_403 "wss://speech.example/ws"
                (mkOptions (Some {[ "Origin" := "chrome-extension://x" ]}))).1
    = [("https://speech.example/ws", hs)]
    /\ hs !! "Upgrade" = Some "websocket"
    /\ forall k, k <> "Upgrade" ->
         hs !! k = ({[ "Origin" := "chrome-extension://x" ]} : Headers) !! k.
Proof.
  exact (edge_request edge_403 "speech.example/ws"
           (mkOptions (Some {[ "Origin" := "chrome-extension://x" ]}))
           eq_refl).
Defined.

(** C7 as stated fails: an address with the scheme [ws] is requested
    as it is, not under [http]. *)
Lemma ws_scheme_counterexample :
  map fst (requests (getIsomorphicWebSocket edge_403 "ws://speech.example/ws"
                       (mkOptions None)).1)
  = ["ws://speech.example/ws"]
  /\ "ws://speech.example/ws" <> "http://speech.example/ws".
Proof. split; [reflexivity|discriminate]. Qed.

(** C8. On the generic path with headers configured, the factory logs
    exactly one warning, before it constructs the socket from the
    address alone: no effect of the run carries the headers. *)
Theorem header_drop_warning {W} (rt : @Runtime W) (url : string)
    (options : IsomorphicWebSocketOptions) (hs : Headers) :
  isCloudflareWorkerRuntime rt = false ->
  isNodeRuntime rt = false ->
  headers options = Some hs ->
  hs <> ∅ ->
  let run := getIsomorphicWebSocket rt url options in
  length (warnings run.1) = 1
  /\ run.1 = [LogWarn "Falling back to global WebSocket; custom headers may not be applied";
              NewWebSocket url]
  /\ Forall (fun e => applied_headers e = None) run.1
  /\ run.2 = match WebSocket rt url with
             | Normal socket => Normal (GlobalSocket socket)
             | Throw e => Throw e
             end.
Proof.
  intros Hcf Hnode _ _ run. subst run.
  rewrite (generic_run rt url options Hcf Hnode). simpl.
  repeat split; repeat constructor.
Qed.

Lemma header_drop_warning_witness :
  let run := getIsomorphicWebSocket browser "wss://speech.example/ws"
               (mkOptions (Some {[ "Origin" := "chrome-extension://x" ]})) in
  length (warnings run.1) = 1
  /\ run.1 = [LogWarn "Falling back to global WebSocket; custom headers may not be applied";
              NewWebSocket "wss://speech.example/ws"]
  /\ Forall (fun e => applied_headers e = None) run.1
  /\ run.2 = Normal (GlobalSocket 1).
Proof.
  refine (header_drop_warning browser "wss://speech.example/ws"
            (mkOptions (Some {[ "Origin" := "chrome-extension://x" ]}))
            {[ "Origin" := "chrome-extension://x" ]}
            eq_refl eq_refl eq_refl _).
  intros Hempty.
  apply (f_equal (fun m : Headers => m !! "Origin")) in Hempty.
  vm_compute in Hempty. discriminate Hempty.
Defined.

(** C10. The warning of the generic path does not depend on the
    options: it is logged once for every configuration, also for one
    without headers or with an empty header map. *)
Theorem warning_is_unconditional {W} (rt : @Runtime W) (url : string) :
  isCloudflareWorkerRuntime rt = false ->
  isNodeRuntime rt = false ->
  (forall options,
     warnings (getIsomorphicWebSocket rt url options).1
     = ["Falling back to global WebSocket; custom headers may not be applied"])
  /\ warnings (getIsomorphicWebSocket rt url (mkOptions None)).1
     = ["Falling back to global WebSocket; custom headers may not be applied"]
  /\ warnings (getIsomorphicWebSocket rt url (mkOptions (Some ∅))).1
     = ["Falling back to global WebSocket; custom headers may not be applied"].
Proof.
  intros Hcf Hnode.
  assert (Hall : forall options,
    warnings (getIsomorphicWebSocket rt url options).1
    = ["Falling back to global WebSocket; custom headers may not be applied"]).
  { intros options. by rewrite (generic_run rt url options Hcf Hnode). }
  auto.
Qed.

Lemma warning_is_unconditional_witness :
  warnings (getIsomorphicWebSocket browser "wss://speech.example/ws"
              (mkOptions None)).1
  = ["Falling back to global WebSocket; custom headers may not be applied"].
Proof.
  exact (proj1 (proj2 (warning_is_unconditional browser
                         "wss://speech.example/ws" eq_refl eq_refl))).
Defined.

(** ** The listener bridge *)

Section BridgeFacts.
Context {W : Type} (toString : Heap -> JsValue -> string).
Implicit Types (socket : @NodeWebSocket W) (type : EventType)
  (listener : @Listener W).

Lemma call_listeners_app (fs gs : list (EventType * @Handler W)) type args w h :
  call_listeners (fs ++ gs) type args w h
  = bind (call_listeners fs type args w)
         (fun w' => call_listeners gs type args w') h.
Proof.
  revert w h. induction fs as [|[t f] fs IH]; intros w h; simpl.
  - reflexivity.
  - destruct (decide (t = type)); [|apply IH].
    unfold bind in *. destruct (f args w h) as [[w' h']|err]; [|done].
    apply IH.
Qed.

Lemma addEventListener_on socket type listener :
  ws_has_addEventListener socket = false ->
  addEventListener toString type listener socket
  = on type (bridge_handler toString type listener) socket.
Proof. intros Hno. unfold addEventListener. rewrite Hno. by destruct type. Qed.

Lemma addEventListener_forward socket type listener :
  ws_has_addEventListener socket = true ->
  addEventListener toString type listener socket
  = native_addEventListener type listener socket.
Proof. intros Hyes. unfold addEventListener. by rewrite Hyes. Qed.

Lemma count_appended {A} type type' (a : A) (l : list (EventType * A)) :
  length (filter (fun p => p.1 = type') (l ++ [(type, a)]))
  = length (filter (fun p => p.1 = type') l)
    + (if decide (type = type') then 1 else 0).
Proof.
  rewrite filter_app, length_app, filter_cons, filter_nil. simpl.
  by destruct (decide (type = type')).
Qed.

(** An event with a listener of its kind, or of another kind than
    [error], goes to the listeners. *)
Lemma emit_handled socket type args w h :
  type <> ErrorEvent \/ listenerCount type socket <> 0 ->
  emit type args socket w h
  = call_listeners (ws_listeners socket) type args w h.
Proof.
  intros Hhandled. unfold emit.
  destruct (bool_decide (type = ErrorEvent)) eqn:Herr; [|done].
  apply bool_decide_eq_true in Herr. subst type. simpl.
  destruct Hhandled as [Hne|Hcount]; [done|].
  by rewrite bool_decide_false.
Qed.

(** A callback appended for one kind changes nothing for another. *)
Lemma emit_appended_other socket socket' type type' (f : @Handler W) args w h :
  ws_listeners socket' = ws_listeners socket ++ [(type, f)] ->
  type <> type' ->
  emit type' args socket' w h = emit type' args socket w h.
Proof.
  intros Hls Hother.
  assert (Hcalls : call_listeners (ws_listeners socket') type' args w h
                   = call_listeners (ws_listeners socket) type' args w h).
  { rewrite Hls, call_listeners_app. unfold bind.
    destruct (call_listeners _ type' args w h) as [[w0 h0]|e]; [|done].
    simpl. by destruct (decide (type = type')). }
  assert (Hcount : listenerCount type' socket' = listenerCount type' socket).
  { unfold listenerCount. rewrite Hls, count_appended.
    destruct (decide (type = type')); [done|lia]. }
  destruct (decide (type' = ErrorEvent)) as [->|Hne].
  - unfold emit. rewrite Hcount.
    by destruct (_ && _).
  - rewrite !emit_handled by (by left). exact Hcalls.
Qed.

(** Two callbacks appended for a kind are counted, and called after
    the callbacks that were there. *)
Lemma emit_appended_two socket socket' type (f g : @Handler W) :
  ws_listeners socket' = ws_listeners socket ++ [(type, f); (type, g)] ->
  listenerCount type socket' = listenerCount type socket + 2
  /\ forall args w h,
       emit type args socket' w h
       = (let* w0 := call_listeners (ws_listeners socket) type args w in
          let* w1 := f args w0 in
          g args w1) h.
Proof.
  intros Hls.
  assert (Hcount : listenerCount type socket' = listenerCount type socket + 2).
  { unfold listenerCount. rewrite Hls.
    change [(type, f); (type, g)] with ([(type, f)] ++ [(type, g)]).
    rewrite app_assoc, !count_appended.
    destruct (decide (type = type)); [lia|done]. }
  split; [exact Hcount|]. intros args w h.
  rewrite emit_handled by (right; lia).
  rewrite Hls, call_listeners_app. unfold bind.
  destruct (call_listeners _ type args w h) as [[w0 h0]|e]; [|done].
  simpl. destruct (decide (type = type)) as [_|Hne]; [|done].
  unfold bind, ret.
  destruct (f args w0 h0) as [[w1 h1]|err]; [|done].
  by destruct (g args w1 h1) as [[w2 h2]|err].
Qed.

Lemma native_install socket type listener :
  installed type listener socket = false ->
  ws_has_addEventListener (native_addEventListener type listener socket)
  = ws_has_addEventListener socket
  /\ ws_event (native_addEventListener type listener socket) = ws_event socket
  /\ ws_wrapped (native_addEventListener type listener socket)
     = ws_wrapped socket ++ [(type, listener)]
  /\ ws_listeners (native_addEventListener type listener socket)
     = ws_listeners socket
         ++ [(type, ws_wrapper (ws_event socket) type listener)].
Proof. intros Hnew. unfold native_addEventListener. by rewrite Hnew. Qed.

Lemma installed_after socket type listener :
  installed type listener (native_addEventListener type listener socket) = true.
Proof.
  destruct (installed type listener socket) eqn:Hold.
  - unfold native_addEventListener. by rewrite Hold.
  - destruct (native_install socket type listener Hold) as (_ & _ & Hw & _).
    unfold installed. rewrite Hw, existsb_app. simpl.
    rewrite bool_decide_true by done. rewrite Nat.eqb_refl. simpl.
    by rewrite orb_true_r.
Qed.

Lemma installed_other socket type first second :
  installed type second socket = false ->
  installed type first socket = false ->
  listener_id first <> listener_id second ->
  installed type second (native_addEventListener type first socket) = false.
Proof.
  intros Hsecond Hfirst Hid.
  destruct (native_install socket type first Hfirst) as (_ & _ & Hw & _).
  unfold installed in *. rewrite Hw, existsb_app, Hsecond. simpl.
  apply Nat.eqb_neq in Hid. by rewrite Hid, andb_false_r.
Qed.
End BridgeFacts.

(** C1, as the code has it. The bridge keeps no listener of its own:
    each registration reaches the wrapped socket, through [on] or
    through the socket's own [addEventListener], and a second listener
    for a kind adds to the first. On the [on] path two registrations
    always leave two more callbacks on the emitter; on the other path
    they do when the two listeners are different functions that the
    socket does not hold yet, while a function it holds already is
    ignored. An event of the kind then calls the listeners that were
    there, then the first, then the second. *)
Theorem registrations_accumulate {W} (toString : Heap -> JsValue -> string)
    (socket : @NodeWebSocket W) (type : EventType)
    (first second : @Listener W) :
  let socket' :=
    addEventListener toString type second
      (addEventListener toString type first socket) in
  (ws_has_addEventListener socket = false ->
   ws_listeners socket'
   = ws_listeners socket
       ++ [(type, bridge_handler toString type first);
           (type, bridge_handler toString type second)]
   /\ listenerCount type socket' = listenerCount type socket + 2
   /\ forall args w h,
        emit type args socket' w h
        = (let* w0 := call_listeners (ws_listeners socket) type args w in
           let* w1 := bridge_handler toString type first args w0 in
           bridge_handler toString type second args w1) h)
  /\ (ws_has_addEventListener socket = true ->
      installed type first socket = false ->
      installed type second socket = false ->
      listener_id first <> listener_id second ->
      ws_listeners socket'
      = ws_listeners socket
          ++ [(type, ws_wrapper (ws_event socket) type first);
              (type, ws_wrapper (ws_event socket) type second)]
      /\ listenerCount type socket' = listenerCount type socket + 2
      /\ forall args w h,
           emit type args socket' w h
           = (let* w0 := call_listeners (ws_listeners socket) type args w in
              let* w1 := ws_wrapper (ws_event socket) type first args w0 in
              ws_wrapper (ws_event socket) type second args w1) h)
  /\ (ws_has_addEventListener socket = true ->
      addEventListener toString type first
        (addEventListener toString type first socket)
      = addEventListener toString type first socket).
Proof.
  intros socket'. subst socket'. split; [|split].
  - intros Hno.
    rewrite (addEventListener_on toString socket type first Hno).
    rewrite addEventListener_on by exact Hno.
    assert (Hls : ws_listeners
                    (on type (bridge_handler toString type second)
                       (on type (bridge_handler toString type first) socket))
                  = ws_listeners socket
                      ++ [(type, bridge_handler toString type first);
                          (type, bridge_handler toString type second)])
      by (simpl; by rewrite <- app_assoc).
    split; [exact Hls|]. exact (emit_appended_two socket _ type _ _ Hls).
  - intros Hyes Hfirst Hsecond Hid.
    rewrite (addEventListener_forward toString socket type first Hyes).
    destruct (native_install socket type first Hfirst)
      as (Hflag & Hevent & _ & Hls1).
    rewrite addEventListener_forward by (by rewrite Hflag).
    pose proof (installed_other socket type first second Hsecond Hfirst Hid)
      as Hsecond'.
    destruct (native_install _ type second Hsecond') as (_ & _ & _ & Hls2).
    rewrite Hls1, Hevent, <- app_assoc in Hls2. simpl in Hls2.
    split; [exact Hls2|]. exact (emit_appended_two socket _ type _ _ Hls2).
  - intros Hyes.
    rewrite (addEventListener_forward toString socket type first Hyes).
    assert (Hflag : ws_has_addEventListener
                      (native_addEventListener type first socket) = true).
    { unfold native_addEventListener.
      by destruct (installed type first socket). }
    rewrite addEventListener_forward by exact Hflag.
    unfold native_addEventListener at 1.
    by rewrite installed_after.
Qed.

(** C1 as stated fails: after two registrations for [message] on one
    socket, on either path, a message calls the first listener and
    then the second, and the socket holds two listeners for the
    kind. *)
Lemma listener_overwrite_counterexample :
  let bridged :=
    addEventListener no_toString MessageEvent (push 2)
      (addEventListener no_toString MessageEvent (push 1) bare_socket) in
  let forwarded :=
    addEventListener no_toString MessageEvent (push 2)
      (addEventListener no_toString MessageEvent (push 1) ws8_socket) in
  emit MessageEvent [JString "hello"] bridged [] [] = Normal ([2; 1], [])
  /\ listenerCount MessageEvent bridged = 2
  /\ emit MessageEvent [JString "hello"] forwarded [] [] = Normal ([2; 1], [])
  /\ listenerCount MessageEvent forwarded = 2.
Proof. repeat split; reflexivity. Qed.

(** On a socket with its own [addEventListener], two different
    listeners are both kept and a listener given twice is kept once. *)
Example ws8_registrations :
  listenerCount OpenEvent
    (addEventListener no_toString OpenEvent (push 2)
       (addEventListener no_toString OpenEvent (push 1) ws8_socket)) = 2
  /\ listenerCount OpenEvent
       (addEventListener no_toString OpenEvent (push 1)
          (addEventListener no_toString OpenEvent (push 1) ws8_socket)) = 1.
Proof. split; reflexivity. Qed.

(** * Further properties of the code *)

(** ** The normalizer never fails *)

Section Totality.
Implicit Types (h : Heap) (x : JsValue) (v : TypedArray).

Lemma chunk_to_Uint8Array_total x h :
  exists v t, chunk_to_Uint8Array x h = Normal (v, h ++ t).
Proof.
  assert (Hkeep : forall v, exists v' t,
            @Normal (TypedArray * Heap) (v, h) = Normal (v', h ++ t)).
  { intros v. exists v, []. by rewrite app_nil_r. }
  destruct x as [| |b|n|s|b|[[] b off len]|xs|c]; simpl;
    first [ apply Hkeep | by eexists _, [_] ].
Qed.

Lemma mapM_chunks_total xs h :
  exists vs t, mapM chunk_to_Uint8Array xs h = Normal (vs, h ++ t).
Proof.
  revert h. induction xs as [|x xs IH]; intros h.
  - exists [], []. simpl. unfold ret. by rewrite app_nil_r.
  - destruct (chunk_to_Uint8Array_total x h) as (v & t1 & Hv).
    destruct (IH (h ++ t1)) as (vs & t2 & Hvs).
    exists (v :: vs), (t1 ++ t2). simpl. unfold bind at 1. rewrite Hv.
    unfold bind at 1. rewrite Hvs. unfold ret. by rewrite app_assoc.
Qed.

(** The bound [set] tests always holds in the loop: the offset is the
    sum of the lengths written, the target has room for all of them. *)
Lemma merge_loop_total h total (vs : list TypedArray) :
  forall offset buf,
    offset + sum_list (map byteLength vs) <= total ->
    exists buf',
      merge_loop (Uint8Array_on (length h) 0 total) vs offset (h ++ [buf])
      = Normal (tt, h ++ [buf']).
Proof.
  induction vs as [|v vs IH]; intros offset buf Hfit; simpl in *.
  - by exists buf.
  - unfold bind, Uint8Array_set. simpl.
    rewrite bool_decide_true by lia.
    rewrite (alter_app_r_alt _ h) by lia.
    rewrite Nat.sub_diag. simpl. apply IH. lia.
Qed.

Lemma normalize_shape data h :
  exists r t,
    normalizeNodeMessageData data h = Normal (r, h ++ t)
    /\ canonical r = true.
Proof.
  assert (Hsame : forall r, canonical r = true ->
            exists r' t, @Normal (JsValue * Heap) (r, h) = Normal (r', h ++ t)
                         /\ canonical r' = true).
  { intros r Hr. exists r, []. by rewrite app_nil_r. }
  destruct data as [| |b|n|s|b|v|xs|c];
    try (by eexists _, [_]); try (by apply Hsame).
  destruct (mapM_chunks_total xs h) as (vs & t & Hvs).
  destruct (merge_loop_total (h ++ t) (totalLength vs) vs 0
              (replicate (totalLength vs) x00)) as (buf & Hloop).
  { rewrite totalLength_sum. lia. }
  exists (JView (Uint8Array_on (length (h ++ t)) 0 (totalLength vs))),
         (t ++ [buf]).
  split; [|done].
  unfold normalizeNodeMessageData. simpl.
  unfold bind at 1. rewrite Hvs.
  unfold bind at 1. unfold new_Uint8Array at 1.
  unfold bind at 1. rewrite Hloop. unfold ret. by rewrite app_assoc.
Qed.

Lemma canonical_fixed r h :
  canonical r = true -> normalizeNodeMessageData r h = Normal (r, h).
Proof.
  destruct r as [| |b|n|s|b|[[] b off len]|xs|c]; simpl; done.
Qed.
End Totality.

(** X1. Given a string, a live buffer or view, a dense array whose
    buffers and views are live, or any other plain value, the
    normalizer does not throw (in the loop the bound that [set] tests
    always holds) and changes no buffer that existed before: the store
    it returns is the one it received followed by the buffers it
    allocated. *)
Theorem normalize_never_throws (data : JsValue) (h : Heap) :
  data_live h data = true ->
  exists r t, normalizeNodeMessageData data h = Normal (r, h ++ t).
Proof.
  intros _. destruct (normalize_shape data h) as (r & t & Hrun & _). eauto.
Qed.

Lemma normalize_never_throws_witness :
  exists r t,
    normalizeNodeMessageData (JArray sample_mixed) sample_store
    = Normal (r, sample_store ++ t).
Proof.
  exact (normalize_never_throws (JArray sample_mixed) sample_store eq_refl).
Defined.

(** X2. Given a string, a live buffer or view, a dense array whose
    buffers and views are live, or any other plain value, the
    normalizer returns a string, an [ArrayBuffer] or a plain
    [Uint8Array]: a [Buffer], another kind of view or an array of
    chunks does not come back as such. *)
Theorem normalize_result_canonical (data : JsValue) (h : Heap) :
  data_live h data = true ->
  exists r h',
    normalizeNodeMessageData data h = Normal (r, h')
    /\ (is_Some (as_string r) \/ is_Some (as_ArrayBuffer r)
        \/ exists b off len, r = JView (mkView Uint8ArrayView b off len)).
Proof.
  intros _. destruct (normalize_shape data h) as (r & t & Hrun & Hr).
  exists r, (h ++ t). split; [exact Hrun|].
  destruct r as [| |b|n|s|b|[[] b off len]|xs|c]; try discriminate;
    eauto 10.
Qed.

Lemma normalize_result_canonical_witness :
  exists r h',
    normalizeNodeMessageData (JView (mkView NodeBufferView 2 1 2)) sample_store
    = Normal (r, h')
    /\ (is_Some (as_string r) \/ is_Some (as_ArrayBuffer r)
        \/ exists b off len, r = JView (mkView Uint8ArrayView b off len)).
Proof.
  exact (normalize_result_canonical (JView (mkView NodeBufferView 2 1 2))
           sample_store eq_refl).
Defined.

(** X3. Normalizing is idempotent: normalizing a result again returns
    that very value and leaves the store as it is. *)
Theorem normalize_idempotent (data : JsValue) (h : Heap) :
  exists r h',
    normalizeNodeMessageData data h = Normal (r, h')
    /\ normalizeNodeMessageData r h' = Normal (r, h').
Proof.
  destruct (normalize_shape data h) as (r & t & Hrun & Hr).
  exists r, (h ++ t). split; [exact Hrun|]. by apply canonical_fixed.
Qed.

(** ** More on the listener bridge *)

Section BridgeRuns.
Context {W : Type} (toString : Heap -> JsValue -> string).
Implicit Types (socket : @NodeWebSocket W) (type : EventType)
  (listener : @Listener W) (listeners : list (@Listener W)).

Lemma emit_single socket type listener args w h :
  ws_has_addEventListener socket = false ->
  ws_listeners socket = [] ->
  emit type args (addEventListener toString type listener socket) w h
  = bridge_handler toString type listener args w h.
Proof.
  intros Hno Hnone. rewrite addEventListener_on by exact Hno.
  rewrite emit_handled.
  - unfold on. simpl. rewrite Hnone. simpl.
    destruct (decide (type = type)) as [_|Hne]; [|done].
    unfold bind, ret.
    by destruct (bridge_handler _ _ _ _ _ _) as [[w' h']|e].
  - right. unfold listenerCount, on. simpl. rewrite Hnone. simpl.
    rewrite filter_cons. simpl. by destruct (decide (type = type)).
Qed.


End BridgeRuns.

(** X4. A listener is called for events of its own kind only:
    registering for one kind changes nothing about what an event of
    another kind does. *)
Theorem registration_leaves_other_kinds {W}
    (toString : Heap -> JsValue -> string) (socket : @NodeWebSocket W)
    (type type' : EventType) (listener : @Listener W)
    (args : list JsValue) (w : W) (h : Heap) :
  type <> type' ->
  emit type' args (addEventListener toString type listener socket) w h
  = emit type' args socket w h.
Proof.
  intros Hother. destruct (ws_has_addEventListener socket) eqn:Hnative.
  - rewrite addEventListener_forward by exact Hnative.
    destruct (installed type listener socket) eqn:Hold.
    + unfold native_addEventListener. by rewrite Hold.
    + destruct (native_install socket type listener Hold) as (_ & _ & _ & Hls).
      exact (emit_appended_other socket _ type type' _ args w h Hls Hother).
  - rewrite addEventListener_on by exact Hnative.
    by apply (emit_appended_other socket _ type type'
                (bridge_handler toString type listener)).
Qed.

Lemma registration_leaves_other_kinds_witness :
  emit MessageEvent [JString "hello"]
    (addEventListener no_toString OpenEvent (push 1) bare_socket)
    [] []
  = Normal ([], []).
Proof.
  refine (registration_leaves_other_kinds no_toString bare_socket
            OpenEvent MessageEvent (push 1)
            [JString "hello"] [] [] _).
  discriminate.
Defined.



(** X6. On the [on] path a close listener gets the code as it came.
    A reason that is missing, [undefined] or [null] is delivered as
    [undefined] without a call of [toString]; any other reason is
    delivered as the string [toString] gives. Nothing is thrown and
    the store is unchanged. *)
Theorem close_reason_delivery {W}
    (toString : Heap -> JsValue -> string) (socket : @NodeWebSocket W)
    (listener : @Listener W) (args : list JsValue) (w : W) (h : Heap) :
  ws_has_addEventListener socket = false ->
  ws_listeners socket = [] ->
  let socket' := addEventListener toString CloseEvent listener socket in
  (length args < 2 \/ argument 1 args = JUndefined \/ argument 1 args = JNull ->
   emit CloseEvent args socket' w h
   = Normal (listener (CloseInfo (argument 0 args) JUndefined) w, h))
  /\ (argument 1 args <> JUndefined -> argument 1 args <> JNull ->
      emit CloseEvent args socket' w h
      = Normal (listener (CloseInfo (argument 0 args)
                            (JString (toString h (argument 1 args)))) w, h)).
Proof.
  intros Hno Hnone socket'. subst socket'.
  rewrite (emit_single toString socket CloseEvent listener args w h Hno Hnone).
  simpl. unfold close_handler, bind, optional_toString, ret. split.
  - intros Hmissing.
    assert (Hr : argument 1 args = JUndefined \/ argument 1 args = JNull).
    { destruct Hmissing as [Hshort|Hr]; [|exact Hr]. left.
      unfold argument. by rewrite lookup_ge_None_2 by lia. }
    by destruct Hr as [-> | ->].
  - intros Hu Hn. by destruct (argument 1 args).
Qed.

Lemma close_reason_delivery_witness :
  emit CloseEvent [JNumber 1006]
    (addEventListener no_toString CloseEvent note_event bare_socket)
    [] []
  = Normal ([CloseInfo (JNumber 1006) JUndefined], []).
Proof.
  refine (proj1 (close_reason_delivery no_toString bare_socket
                   note_event [JNumber 1006] [] []
                   eq_refl eq_refl) _).
  left. simpl. lia.
Defined.



(** X8. When the wrapped socket has its own [addEventListener], the
    bridge hands the listener over to it and installs no handler of
    its own: the one callback then on the emitter is the socket's
    wrapper, so that an event reaches the listener as the event the
    socket builds, the normalizer is not run and the store is left as
    it is. *)
Theorem native_path_bypasses_bridge {W}
    (toString : Heap -> JsValue -> string) (socket : @NodeWebSocket W)
    (type : EventType) (listener : @Listener W) (args : list JsValue)
    (w : W) (h : Heap) :
  ws_has_addEventListener socket = true ->
  installed type listener socket = false ->
  ws_listeners socket = [] ->
  let socket' := addEventListener toString type listener socket in
  ws_listeners socket' = [(type, ws_wrapper (ws_event socket) type listener)]
  /\ emit type args socket' w h
     = match ws_event socket type args h with
       | Normal ev => Normal (listener ev w, h)
       | Throw e => Throw e
       end.
Proof.
  intros Hyes Hnew Hnone socket'. subst socket'.
  rewrite addEventListener_forward by exact Hyes.
  destruct (native_install socket type listener Hnew) as (_ & _ & _ & Hls).
  rewrite Hnone in Hls. simpl in Hls. split; [exact Hls|].
  rewrite emit_handled.
  - rewrite Hls. simpl. destruct (decide (type = type)) as [_|Hne]; [|done].
    unfold bind, ws_wrapper, ret.
    by destruct (ws_event socket type args h).
  - right. unfold listenerCount. rewrite Hls, filter_cons. simpl.
    by destruct (decide (type = type)).
Qed.

Lemma native_path_bypasses_bridge_witness :
  emit MessageEvent [JArray sample_chunks]
    (addEventListener no_toString MessageEvent note_event ws8_socket)
    [] sample_store
  = Normal ([Forwarded (JArray sample_chunks)], sample_store).
Proof.
  exact (proj2 (native_path_bypasses_bridge no_toString ws8_socket
                  MessageEvent note_event [JArray sample_chunks]
                  [] sample_store eq_refl eq_refl eq_refl)).
Defined.

(** ** More on the factory *)

Lemma String_replace_absent (s pattern replacement : string) :
  includes pattern s = false -> String_replace s pattern replacement = s.
Proof.
  induction s as [|c s IH]; simpl.
  - by destruct (strip_prefix pattern "").
  - destruct (strip_prefix pattern (String c s)); [done|].
    intros Hs. by rewrite IH.
Qed.

(** X9. On Node the factory logs one debug line and no warning,
    imports [ws], constructs the socket from the address and exactly
    the configured headers (none when none are configured), and
    resolves with the wrapper of that socket; it issues no request. *)
Theorem node_path_run {W} (rt : @Runtime W) (url : string)
    (options : IsomorphicWebSocketOptions)
    (NodeWebSocket_ : string -> option Headers -> Completion NodeWebSocket)
    (socket : @NodeWebSocket W) :
  isCloudflareWorkerRuntime rt = false ->
  isNodeRuntime rt = true ->
  import_ws rt = Normal NodeWebSocket_ ->
  NodeWebSocket_ url (headers options) = Normal socket ->
  getIsomorphicWebSocket rt url options
  = ([LogDebug url "Using Node WebSocket implementation";
      ImportWs;
      NewNodeWebSocket url (headers options)],
     Normal (WrappedNodeSocket socket)).
Proof.
  intros Hcf Hnode Himport Hnew. unfold getIsomorphicWebSocket.
  rewrite Hcf, Hnode. unfold createNodeWebSocket, perform, then_.
  by rewrite Himport, Hnew.
Qed.

Lemma node_path_run_witness :
  getIsomorphicWebSocket node_host "wss://speech.example/ws"
    (mkOptions (Some {[ "Origin" := "chrome-extension://x" ]}))
  = ([LogDebug "wss://speech.example/ws" "Using Node WebSocket implementation";
      ImportWs;
      NewNodeWebSocket "wss://speech.example/ws"
        (Some {[ "Origin" := "chrome-extension://x" ]})],
     Normal (WrappedNodeSocket bare_socket)).
Proof.
  exact (node_path_run node_host "wss://speech.example/ws"
           (mkOptions (Some {[ "Origin" := "chrome-extension://x" ]}))
           (fun _ _ => Normal bare_socket) bare_socket
           eq_refl eq_refl eq_refl eq_refl).
Defined.

(** X10. On Node a failure is passed on as it is: when the import of
    [ws] fails the factory rejects with that error and constructs
    nothing; when the constructor throws it rejects with what was
    thrown. *)
Theorem node_path_errors {W} (rt : @Runtime W) (url : string)
    (options : IsomorphicWebSocketOptions) (e : JsError) :
  isCloudflareWorkerRuntime rt = false ->
  isNodeRuntime rt = true ->
  (import_ws rt = Throw e ->
   getIsomorphicWebSocket rt url options
   = ([LogDebug url "Using Node WebSocket implementation"; ImportWs],
      Throw e))
  /\ (forall NodeWebSocket_,
        import_ws rt = Normal NodeWebSocket_ ->
        NodeWebSocket_ url (headers options) = Throw e ->
        getIsomorphicWebSocket rt url options
        = ([LogDebug url "Using Node WebSocket implementation";
            ImportWs;
            NewNodeWebSocket url (headers options)],
           Throw e)).
Proof.
  intros Hcf Hnode. unfold getIsomorphicWebSocket.
  rewrite Hcf, Hnode. unfold createNodeWebSocket, perform, then_. split.
  - by intros ->.
  - by intros ctor -> ->.
Qed.

Lemma node_path_errors_witness :
  getIsomorphicWebSocket node_without_ws "wss://speech.example/ws"
    (mkOptions None)
  = ([LogDebug "wss://speech.example/ws" "Using Node WebSocket implementation";
      ImportWs],
     Throw (new_Error "Cannot find package ws")).
Proof.
  exact (proj1 (node_path_errors node_without_ws "wss://speech.example/ws"
                  (mkOptions None) (new_Error "Cannot find package ws")
                  eq_refl eq_refl) eq_refl).
Defined.

(** X11. On the edge path, when the response carries a socket, the
    factory accepts that socket exactly once, after the request, and
    resolves with the socket itself, unwrapped. *)
Theorem edge_upgrade_accepted {W} (rt : @Runtime W) (url : string)
    (options : IsomorphicWebSocketOptions) (response : Response)
    (socket : SocketRef) :
  isCloudflareWorkerRuntime rt = true ->
  fetch rt (String_replace url "wss://" "https://")
        (<["Upgrade" := "websocket"]> (default ∅ (headers options)))
  = Normal response ->
  webSocket response = Some socket ->
  getIsomorphicWebSocket rt url options
  = ([LogDebug url "Using Cloudflare Worker WebSocket implementation";
      FetchCall (String_replace url "wss://" "https://")
        (<["Upgrade" := "websocket"]> (default ∅ (headers options)));
      Accept socket],
     Normal (CloudflareSocket socket)).
Proof.
  intros Hcf Hfetch Hsome. unfold getIsomorphicWebSocket. rewrite Hcf.
  unfold createCloudflareWebSocket, perform, then_.
  by rewrite Hfetch, Hsome.
Qed.

Lemma edge_upgrade_accepted_witness :
  getIsomorphicWebSocket edge_accepting "wss://speech.example/ws"
    (mkOptions None)
  = ([LogDebug "wss://speech.example/ws"
        "Using Cloudflare Worker WebSocket implementation";
      FetchCall "https://speech.example/ws" {[ "Upgrade" := "websocket" ]};
      Accept 5],
     Normal (CloudflareSocket 5)).
Proof.
  exact (edge_upgrade_accepted edge_accepting "wss://speech.example/ws"
           (mkOptions None) (mkResponse 101 "Switching Protocols" (Some 5)) 5
           eq_refl eq_refl eq_refl).
Defined.

(** X12. On the edge path nothing is accepted unless the response
    carries a socket: when [fetch] rejects, the factory rejects with
    the same error, and in that case as in the case of a refusal the
    run consists of the debug line and the one request. *)
Theorem edge_failure_accepts_nothing {W} (rt : @Runtime W) (url : string)
    (options : IsomorphicWebSocketOptions) :
  isCloudflareWorkerRuntime rt = true ->
  let request :=
    FetchCall (String_replace url "wss://" "https://")
      (<["Upgrade" := "websocket"]> (default ∅ (headers options))) in
  let run := getIsomorphicWebSocket rt url options in
  (forall e,
     fetch rt (String_replace url "wss://" "https://")
           (<["Upgrade" := "websocket"]> (default ∅ (headers options)))
     = Throw e ->
     run = ([LogDebug url "Using Cloudflare Worker WebSocket implementation";
             request], Throw e))
  /\ (forall response,
        fetch rt (String_replace url "wss://" "https://")
              (<["Upgrade" := "websocket"]> (default ∅ (headers options)))
        = Normal response ->
        webSocket response = None ->
        run.1 = [LogDebug url "Using Cloudflare Worker WebSocket implementation";
                 request]).
Proof.
  intros Hcf request run. subst request run.
  unfold getIsomorphicWebSocket. rewrite Hcf.
  unfold createCloudflareWebSocket, perform, then_. split.
  - by intros e ->.
  - by intros response -> ->.
Qed.

Lemma edge_failure_accepts_nothing_witness :
  getIsomorphicWebSocket edge_offline "wss://speech.example/ws"
    (mkOptions None)
  = ([LogDebug "wss://speech.example/ws"
        "Using Cloudflare Worker WebSocket implementation";
      FetchCall "https://speech.example/ws" {[ "Upgrade" := "websocket" ]}],
     Throw (new_Error "Network connection lost")).
Proof.
  exact (proj1 (edge_failure_accepts_nothing edge_offline
                  "wss://speech.example/ws" (mkOptions None) eq_refl)
               (new_Error "Network connection lost") eq_refl).
Defined.

(** X13. On the edge path an address that does not contain [wss://]
    (an [https://] or [ws://] address, say) is requested exactly as it
    was given. *)
Theorem edge_address_without_wss {W} (rt : @Runtime W) (url : string)
    (options : IsomorphicWebSocketOptions) :
  isCloudflareWorkerRuntime rt = true ->
  includes "wss://" url = false ->
  requests (getIsomorphicWebSocket rt url options).1
  = [(url, <["Upgrade" := "websocket"]> (default ∅ (headers options)))].
Proof.
  intros Hcf Habsent. unfold getIsomorphicWebSocket.
  rewrite Hcf, then_log. simpl. rewrite createCloudflareWebSocket_log.
  by rewrite String_replace_absent.
Qed.

Lemma edge_address_without_wss_witness :
  requests (getIsomorphicWebSocket edge_403 "https://speech.example/ws"
              (mkOptions None)).1
  = [("https://speech.example/ws", {[ "Upgrade" := "websocket" ]})].
Proof.
  exact (edge_address_without_wss edge_403 "https://speech.example/ws"
           (mkOptions None) eq_refl eq_refl).
Defined.

(** X14. The warning belongs to the generic path alone: a run that
    enters the edge or the Node constructor logs no warning, however
    it ends. *)
Theorem no_warning_off_generic_path {W} (rt : @Runtime W) (url : string)
    (options : IsomorphicWebSocketOptions) :
  isCloudflareWorkerRuntime rt = true \/ isNodeRuntime rt = true ->
  warnings (getIsomorphicWebSocket rt url options).1 = [].
Proof.
  intros Hpath. unfold getIsomorphicWebSocket.
  destruct (isCloudflareWorkerRuntime rt) eqn:Hcf.
  - unfold createCloudflareWebSocket, perform, then_.
    destruct (fetch rt _ _) as [response|e]; [|done].
    by destruct (webSocket response).
  - destruct Hpath as [Hcf'|Hnode]; [discriminate|]. rewrite Hnode.
    unfold createNodeWebSocket, perform, then_.
    destruct (import_ws rt) as [ctor|e]; [|done].
    by destruct (ctor url (headers options)).
Qed.

Lemma no_warning_off_generic_path_witness :
  warnings (getIsomorphicWebSocket node_without_ws "wss://speech.example/ws"
              (mkOptions None)).1 = [].
Proof.
  refine (no_warning_off_generic_path node_without_ws
            "wss://speech.example/ws" (mkOptions None) _).
  right. reflexivity.
Defined.

(** X15. Requests are issued on the edge path alone: when
    [WebSocketPair] is not defined, no run of the factory calls
    [fetch]. *)
Theorem no_request_off_edge_path {W} (rt : @Runtime W) (url : string)
    (options : IsomorphicWebSocketOptions) :
  isCloudflareWorkerRuntime rt = false ->
  requests (getIsomorphicWebSocket rt url options).1 = [].
Proof.
  intros Hcf. unfold getIsomorphicWebSocket. rewrite Hcf.
  destruct (isNodeRuntime rt).
  - unfold createNodeWebSocket, perform, then_.
    destruct (import_ws rt) as [ctor|e]; [|done].
    by destruct (ctor url (headers options)).
  - by rewrite createGlobalWebSocket_run.
Qed.

Lemma no_request_off_edge_path_witness :
  requests (getIsomorphicWebSocket node_host "wss://speech.example/ws"
              (mkOptions None)).1 = [].
Proof.
  exact (no_request_off_edge_path node_host "wss://speech.example/ws"
           (mkOptions None) eq_refl).
Defined.

(** X16. [isNodeRuntime] holds exactly when [process] is defined, has
    a [release], and the release's [name] is the string [node]; a
    [process] without [release] is not an error, only not Node. *)
Theorem isNodeRuntime_iff {W} (rt : @Runtime W) :
  isNodeRuntime rt = true
  <-> exists p r, process rt = Some p /\ release p = Some r
                  /\ name r = JString "node".
Proof.
  unfold isNodeRuntime. split.
  - destruct (process rt) as [p|]; [|done].
    destruct (release p) as [r|] eqn:Hrelease; [|done].
    intros Hname. exists p, r. split; [done|]. split; [done|].
    destruct (name r); try discriminate.
    simpl in Hname. apply String.eqb_eq in Hname. by subst.
  - intros (p & r & -> & -> & ->). reflexivity.
Qed.

(** ** Copy or alias *)



